(** * ukol2.py: great-circle distance, nearest city, coordinate parsing

    A shallow embedding of [src/ukol2.py].

    Python's [float] is idealised as the real numbers [R]: arithmetic and
    the [math] functions are exact, and neither NaN nor the infinities
    exist.  What the idealisation keeps is every place where the program
    can raise: [math.sqrt] on a negative argument, [min] on an empty
    sequence, a missing dictionary key, [float] on a value it cannot
    convert, and the program's own [raise].  Exceptions are values of
    [exception], and a computation that may raise has type [result A]. *)

From Stdlib Require Import Reals Lra Lia List.
From stdpp Require Import base option list gmap strings.

Open Scope R_scope.

(** ** Exceptions and results *)

(** The exceptions that the modelled functions can raise, one constructor
    per raising site.  [exc_class] gives the Python class of each. *)
Inductive exception : Type :=
| MathDomainError                  (* math.sqrt(x) with x < 0 *)
| MinEmptySequence                 (* min() of an empty iterable *)
| InvalidCoordinatesFile           (* the raise of line 41 *)
| FloatParseError (s : string)     (* float(s), s not a number *)
| FloatTypeError                   (* float(None) *)
| KeyError (key : string).         (* d[key], key absent *)

Inductive py_class : Type := ClsValueError | ClsTypeError | ClsKeyError.

Definition exc_class (e : exception) : py_class :=
  match e with
  | MathDomainError | MinEmptySequence | InvalidCoordinatesFile
  | FloatParseError _ => ClsValueError
  | FloatTypeError => ClsTypeError
  | KeyError _ => ClsKeyError
  end.

Inductive result (A : Type) : Type :=
| Ok (a : A)
| Raise (e : exception).

Arguments Ok {A} a.
Arguments Raise {A} e.

#[global] Instance result_ret : MRet result := fun A a => Ok a.

#[global] Instance result_bind : MBind result := fun A B k m =>
  match m with
  | Ok a => k a
  | Raise e => Raise e
  end.

(** ** The [math] module over the reals *)

Definition radians (x : R) : R := x * (PI / 180).

(** [math.sqrt] raises [ValueError: math domain error] below zero. *)
Definition py_sqrt (x : R) : result R :=
  if Rle_dec 0 x then Ok (sqrt x) else Raise MathDomainError.

(** [math.atan2 y x]: the angle of the point [(x, y)], in [(-PI, PI]]. *)
Definition atan2 (y x : R) : R :=
  if Rlt_dec 0 x then atan (y / x)
  else if Rlt_dec x 0 then
    if Rle_dec 0 y then atan (y / x) + PI else atan (y / x) - PI
  else
    if Rlt_dec 0 y then PI / 2
    else if Rlt_dec y 0 then - (PI / 2)
    else 0.

(** ** Coordinates and cities *)

Definition EARTH_RADIUS : R := 6371.

Record Coordinate : Type := mkCoordinate {
  latitude : R;
  longitude : R
}.

(** [class City(Coordinate)]: a coordinate with a name. *)
Record City : Type := mkCity {
  name : string;
  coord :> Coordinate
}.

(** [City(name, latitude, longitude)]. *)
Definition new_City (n : string) (lat lon : R) : City :=
  mkCity n (mkCoordinate lat lon).

(** [Coordinate.distance(c1, c2)], lines 17-25.  The two calls of
    [math.sqrt] are evaluated left to right. *)
Definition distance (c1 c2 : Coordinate) : result R :=
  let dlat := radians (latitude c2 - latitude c1) in
  let dlon := radians (longitude c2 - longitude c1) in
  let a := sin (dlat / 2) * sin (dlat / 2)
           + radians (latitude c1) * cos (radians (latitude c2))
             * sin (dlon / 2) * sin (dlon / 2) in
  s1 ← py_sqrt a;
  s2 ← py_sqrt (1 - a);
  let c := 2 * atan2 s1 s2 in
  Ok (EARTH_RADIUS * c).

(** The haversine value that [distance] computes, [a] of lines 21-23. *)
Definition hav_code (c1 c2 : Coordinate) : R :=
  sin (radians (latitude c2 - latitude c1) / 2)
  * sin (radians (latitude c2 - latitude c1) / 2)
  + radians (latitude c1) * cos (radians (latitude c2))
    * sin (radians (longitude c2 - longitude c1) / 2)
    * sin (radians (longitude c2 - longitude c1) / 2).

(** The haversine formula in the words of the specification (section 4.1,
    steps 1-4): the cross term carries [cos (radians lat1)]. *)
Definition haversine_spec (c1 c2 : Coordinate) : result R :=
  let dlat := radians (latitude c2 - latitude c1) in
  let dlon := radians (longitude c2 - longitude c1) in
  let a := sin (dlat / 2) * sin (dlat / 2)
           + cos (radians (latitude c1)) * cos (radians (latitude c2))
             * (sin (dlon / 2) * sin (dlon / 2)) in
  s1 ← py_sqrt a;
  s2 ← py_sqrt (1 - a);
  let c := 2 * atan2 s1 s2 in
  Ok (6371 * c).

(** [math.isclose(x, y)] with its default relative tolerance [1e-9]. *)
Definition isclose (x y : R) : Prop :=
  Rabs (x - y) <= 1 / 1000000000 * Rmax (Rabs x) (Rabs y).

(** ** [min] with a key *)

Section PyMin.
Context {A : Type} (key : A -> result R).

(** The loop of the builtin [min(iterable, key=...)]: the key of every
    item is computed once, in order, and the running minimum is replaced
    only when the new key is strictly smaller. *)
Fixpoint min_scan (best : A) (best_key : R) (rest : list A) : result A :=
  match rest with
  | [] => Ok best
  | item :: rest' =>
      k ← key item;
      if Rlt_dec k best_key then min_scan item k rest'
      else min_scan best best_key rest'
  end.

Definition py_min (items : list A) : result A :=
  match items with
  | [] => Raise MinEmptySequence
  | item :: rest => k ← key item; min_scan item k rest
  end.

(** [m] is the first item of minimum key in [items]: every key is
    defined, the items before [m] have strictly larger keys and the
    items after it keys that are at least as large. *)
Definition first_minimum (items : list A) (m : A) : Prop :=
  exists pre post km,
    items = pre ++ m :: post
    /\ key m = Ok km
    /\ Forall (fun x => exists k, key x = Ok k /\ km < k) pre
    /\ Forall (fun x => exists k, key x = Ok k /\ km <= k) post.
End PyMin.

(** ** [write_closest_cities] *)

(** Lines 93-95: [min(cities, key=lambda city: Coordinate.distance(city,
    coordinate))]. *)
Definition closest_city (coordinate : Coordinate) (cities : list City)
  : result City :=
  py_min (fun city : City => distance city coordinate) cities.

(** A CSV file under construction: the rows passed to [writer.writerow]. *)
Inductive cell : Type :=
| Num (x : R)
| Str (s : string).

Definition csv_file : Type := list (list cell).

Definition header_row : list cell :=
  [Str "longitude"; Str "longtitude"; Str "city"].

(** The row of lines 96-102, for [coordinate] once [city] is chosen. *)
Definition match_row (coordinate : Coordinate) (city : City) : list cell :=
  [Num (latitude coordinate); Num (longitude coordinate); Str (name city)].

(** The [for] loop of lines 92-102.  An exception leaves the loop with the
    rows written so far in the file. *)
Fixpoint write_matches (coordinates : list Coordinate) (cities : list City)
  (file : csv_file) : csv_file * result unit :=
  match coordinates with
  | [] => (file, Ok tt)
  | coordinate :: rest =>
      match closest_city coordinate cities with
      | Raise e => (file, Raise e)
      | Ok city =>
          write_matches rest cities (file ++ [match_row coordinate city])
      end
  end.

(** [write_closest_cities(path, coordinates, cities)]: the content of the
    file at [path] afterwards, and how the call ended. *)
Definition write_closest_cities (coordinates : list Coordinate)
  (cities : list City) : csv_file * result unit :=
  write_matches coordinates cities [header_row].

(** ** [parse_coordinates] *)

Section ParseCoordinates.
(** The builtin [float] applied to a string: [Some x] when the string
    denotes the number [x], [None] when [float] raises [ValueError]. *)
Variable parse_float : string -> option R.

(** [float(v)] for a value of a [csv.DictReader] row, which is a string,
    or [None] where the line was shorter than the header. *)
Definition py_float (v : option string) : result R :=
  match v with
  | None => Raise FloatTypeError
  | Some s =>
      match parse_float s with
      | Some x => Ok x
      | None => Raise (FloatParseError s)
      end
  end.

(** [d[key]] on a dictionary. *)
Definition getitem (d : gmap string (option string)) (key : string)
  : result (option string) :=
  match d !! key with
  | Some v => Ok v
  | None => Raise (KeyError key)
  end.

(** [float(row['value'])]. *)
Definition value_of (row : gmap string (option string)) : result R :=
  v ← getitem row "value"; py_float v.

(** The [while] loop of lines 38-44 over the rows that the reader still
    holds; [coordinates] is the list built so far. *)
Fixpoint parse_loop (reader : list (gmap string (option string)))
  (coordinates : list Coordinate) : result (list Coordinate) :=
  match reader with
  | [] => Ok coordinates
  | latitude :: reader' =>
      match reader' with
      | [] => Raise InvalidCoordinatesFile
      | longitude :: reader'' =>
          lat ← value_of latitude;
          lon ← value_of longitude;
          parse_loop reader'' (coordinates ++ [mkCoordinate lat lon])
      end
  end.

(** [parse_coordinates(path)], given the data rows that
    [csv.DictReader] yields for the file at [path]. *)
Definition parse_coordinates (rows : list (gmap string (option string)))
  : result (list Coordinate) :=
  parse_loop rows [].

(** The rows taken two at a time: the first of each pair gives the
    latitude, the second the longitude. *)
Inductive paired :
  list (gmap string (option string)) -> list Coordinate -> Prop :=
| paired_nil : paired [] []
| paired_cons (r1 r2 : gmap string (option string)) rows lat lon coords :
    value_of r1 = Ok lat ->
    value_of r2 = Ok lon ->
    paired rows coords ->
    paired (r1 :: r2 :: rows) (mkCoordinate lat lon :: coords).
End ParseCoordinates.

(** ** The geocoding service, [parse_cities], [write_coordinates], [main] *)

(** The first argument of [geocode]: the text of a line, or the list
    [[latitude, longitude]]. *)
Inductive location : Type :=
| Place (line : string)
| Point (lat lon : R).

(** What one call of [geocoder.arcgis(location, method='reverse').json]
    gives: an exception, [None], or a JSON object.  The object is kept as
    its entries with a number for value and its entries with a string for
    value; a key has one value, so it is in one of the two maps at most. *)
Inductive geo_answer : Type :=
| GeoError
| GeoNone
| GeoJson (numbers : gmap string R) (texts : gmap string string).

(** What the program prints: line 58 and line 81. *)
Inductive message : Type :=
| FailedLocation (line : string)
| FailedCity (lat lon : R).

(** [StopIteration] besides the exceptions above. *)
Inductive py_exception : Type :=
| StopIteration
| Builtin (e : exception).

Inductive outcome (A : Type) : Type :=
| Returned (a : A)
| Raised (e : py_exception).

Arguments Returned {A} a.
Arguments Raised {A} e.

(** [Coordinate.__iter__], lines 14-15, as the pair it yields. *)
Definition iter_Coordinate (c : Coordinate) : R * R :=
  (latitude c, longitude c).

(** [geo[key]] where the program needs a [float] (the parameters
    [latitude] and [longitude] of [City.__init__]). *)
Definition geo_number (numbers : gmap string R) (key : string) : option R :=
  numbers !! key.

(** [geo[key]] where any value will do (a cell of a CSV row). *)
Definition geo_item (numbers : gmap string R) (texts : gmap string string)
  (key : string) : option cell :=
  match texts !! key with
  | Some s => Some (Str s)
  | None => Num <$> numbers !! key
  end.

(** The body of the [try] of lines 55-56 after the call of [geocode]:
    [City(line, geo['lat'], geo['lng'])], or [None] when an exception is
    raised, which the [except] clause of line 57 catches. *)
Definition city_of_answer (line : string) (geo : geo_answer) : option City :=
  match geo with
  | GeoJson numbers _ =>
      lat ← geo_number numbers "lat";
      lng ← geo_number numbers "lng";
      Some (new_City line lat lng)
  | GeoError | GeoNone => None
  end.

Definition info_header : list cell :=
  [Str "latitude"; Str "longitude"; Str "country"; Str "city";
   Str "address"].

(** The row of lines 72-78, or [None] when building it raises. *)
Definition info_row (lat lon : R) (geo : geo_answer) : option (list cell) :=
  match geo with
  | GeoJson numbers texts =>
      country ← geo_item numbers texts "country";
      city ← geo_item numbers texts "city";
      address ← geo_item numbers texts "address";
      Some [Num lat; Num lon; country; city; address]
  | GeoError | GeoNone => None
  end.

(** The files that a run of [main] has written, what it has printed, the
    state of the service afterwards and how the run ended. *)
Record run (world : Type) : Type := mkRun {
  info_file : option csv_file;
  closest_file : option csv_file;
  printed : list message;
  web : world;
  ended : outcome unit
}.

Arguments mkRun {world} _ _ _ _ _.
Arguments info_file {world} _.
Arguments closest_file {world} _.
Arguments printed {world} _.
Arguments web {world} _.
Arguments ended {world} _.

Section Service.
(** The builtin [float] on strings and the method [str.strip]. *)
Variable parse_float : string -> option R.
Variable strip : string -> string.

(** The geocoding service: [world] is all that its answers depend on
    besides the question, and asking changes it. *)
Variable world : Type.
Variable arcgis : location -> world -> geo_answer * world.

(** [geocode(location, method='reverse')], lines 105-107. *)
Definition geocode (loc : location) (w : world) : geo_answer * world :=
  arcgis loc w.

(** The [for] loop of lines 52-58 over the lines left in the file. *)
Fixpoint cities_loop (lines : list string) (cities : list City)
  (out : list message) (w : world) : list City * list message * world :=
  match lines with
  | [] => (cities, out, w)
  | line :: rest =>
      let line := strip line in
      let '(geo, w') := geocode (Place line) w in
      match city_of_answer line geo with
      | Some city => cities_loop rest (cities ++ [city]) out w'
      | None => cities_loop rest cities (out ++ [FailedLocation line]) w'
      end
  end.

(** [parse_cities(path)], given the lines of the file at [path], what has
    been printed so far and the state of the service.  [next(file)] on a
    file without a line raises [StopIteration]. *)
Definition parse_cities (file : list string) (out : list message)
  (w : world) : outcome (list City) * list message * world :=
  match file with
  | [] => (Raised StopIteration, out, w)
  | _header :: lines =>
      let '(cities, out', w') := cities_loop lines [] out w in
      (Returned cities, out', w')
  end.

(** The [for] loop of lines 68-81. *)
Fixpoint info_loop (coordinates : list Coordinate) (file : csv_file)
  (out : list message) (w : world) : csv_file * list message * world :=
  match coordinates with
  | [] => (file, out, w)
  | coordinate :: rest =>
      let '(lat, lon) := iter_Coordinate coordinate in
      let '(geo, w') := geocode (Point lat lon) w in
      match info_row lat lon geo with
      | Some row => info_loop rest (file ++ [row]) out w'
      | None => info_loop rest file (out ++ [FailedCity lat lon]) w'
      end
  end.

(** [write_coordinates(path, coordinates)]: the content of the file at
    [path] afterwards. *)
Definition write_coordinates (coordinates : list Coordinate)
  (out : list message) (w : world) : csv_file * list message * world :=
  info_loop coordinates [info_header] out w.

(** [main()], lines 110-114, given the rows of [coordinates.csv] and the
    lines of the file of city names. *)
Definition main (coordinates_csv : list (gmap string (option string)))
  (cities_csv : list string) (w : world) : run world :=
  match parse_coordinates parse_float coordinates_csv with
  | Raise e => mkRun None None [] w (Raised (Builtin e))
  | Ok coordinates =>
      match parse_cities cities_csv [] w with
      | (Raised e, out, w1) => mkRun None None out w1 (Raised e)
      | (Returned cities, out, w1) =>
          let '(info, out2, w2) := write_coordinates coordinates out w1 in
          let '(closest, r) := write_closest_cities coordinates cities in
          mkRun (Some info) (Some closest) out2 w2
            (match r with
             | Ok _ => Returned tt
             | Raise e => Raised (Builtin e)
             end)
      end
  end.
End Service.

(** ** Points used in the statements below *)

(** The range of a GeoPoint in the specification's data model. *)
Definition in_degree_range (c : Coordinate) : Prop :=
  -90 <= latitude c <= 90 /\ -180 <= longitude c <= 180.

Definition origin : Coordinate := mkCoordinate 0 0.
Definition equator_1E : Coordinate := mkCoordinate 0 1.
Definition equator_90E : Coordinate := mkCoordinate 0 90.
Definition north_pole (lon : R) : Coordinate := mkCoordinate 90 lon.
Definition south_pole (lon : R) : Coordinate := mkCoordinate (-90) lon.
Definition lat30_lon180 : Coordinate := mkCoordinate 30 180.

(** A row of a file with the header [value], and one of a file with the
    header [latitude]. *)
Definition value_row (s : string) : gmap string (option string) :=
  {[ "value" := Some s ]}.
Definition latitude_row (s : string) : gmap string (option string) :=
  {[ "latitude" := Some s ]}.

(** [float] on the three strings of the example rows. *)
Definition sample_float (s : string) : option R :=
  if String.eqb s "50.08" then Some 50.08
  else if String.eqb s "14.42" then Some 14.42
  else if String.eqb s "49.19" then Some 49.19
  else None.

Definition rows_value : list (gmap string (option string)) :=
  [value_row "50.08"; value_row "14.42"; value_row "49.19"].
Definition rows_latitude : list (gmap string (option string)) :=
  [latitude_row "50.08"; latitude_row "14.42"; latitude_row "49.19"].

Definition city_pole_180 : City := new_City "Pole180" 90 180.
Definition city_A : City := new_City "A" 30 180.
Definition city_B : City := new_City "B" 90 0.

(** ** A sample service and sample files *)

(** [str.strip] on ASCII text: the characters that it removes at both
    ends are the space, the characters 9 to 13 and 28 to 31. *)
Definition is_space (a : Ascii.ascii) : bool :=
  let n := Ascii.nat_of_ascii a in
  ((n =? 32) || ((9 <=? n) && (n <=? 13)) || ((28 <=? n) && (n <=? 31)))%nat.

Fixpoint lstrip (s : string) : string :=
  match s with
  | EmptyString => EmptyString
  | String a s' => if is_space a then lstrip s' else s
  end.

Fixpoint rstrip (s : string) : string :=
  match s with
  | EmptyString => EmptyString
  | String a s' =>
      match rstrip s' with
      | EmptyString => if is_space a then EmptyString
                       else String a EmptyString
      | String b t => String a (String b t)
      end
  end.

Definition ascii_strip (s : string) : string := rstrip (lstrip s).

(** A line of a text file: the text and the newline character. *)
Definition text_line (s : string) : string :=
  String.append s (String (Ascii.ascii_of_nat 10) EmptyString).

(** A service that knows one place and gives the same address for every
    point. *)
Definition sample_answer (loc : location) : geo_answer :=
  match loc with
  | Place line =>
      if String.eqb line "Praha"
      then GeoJson {[ "lat" := 50.08; "lng" := 14.42 ]} ∅
      else GeoNone
  | Point _ _ =>
      GeoJson ∅ {[ "country" := "CZE"; "city" := "Praha";
                   "address" := "Praha 1" ]}
  end.

Definition sample_arcgis (loc : location) (w : unit) : geo_answer * unit :=
  (sample_answer loc, w).

(** A service that is down. *)
Definition silent_arcgis (loc : location) (w : unit) : geo_answer * unit :=
  (GeoNone, w).

Definition rows_one_point : list (gmap string (option string)) :=
  [value_row "49.19"; value_row "14.42"].

Definition rows_one_point_labelled : list (gmap string (option string)) :=
  [<[ "kind" := Some "latitude" ]> (value_row "49.19");
   <[ "kind" := Some "longitude" ]> (value_row "14.42")].

Definition cities_file : list string :=
  [text_line "name"; text_line "Praha"; text_line "Atlantis"].

(** * Properties *)

(** ** Facts about the [math] functions *)

Lemma PI_bounds : 3.1415 < PI < 3.1417.
Proof.
  pose proof (PI_2_3_7_ineq 2) as [Hlo Hhi].
  unfold tg_alt, PI_2_3_7_tg, Ratan_seq in Hlo, Hhi.
  simpl in Hlo, Hhi.
  split; lra.
Qed.

Lemma py_sqrt_ok (x : R) : 0 <= x -> py_sqrt x = Ok (sqrt x).
Proof.
  intros Hx. unfold py_sqrt.
  destruct (Rle_dec 0 x); [reflexivity | lra].
Qed.

Lemma py_sqrt_raise (x : R) : x < 0 -> py_sqrt x = Raise MathDomainError.
Proof.
  intros Hx. unfold py_sqrt.
  destruct (Rle_dec 0 x); [lra | reflexivity].
Qed.

Lemma atan2_right (y x : R) : 0 < x -> atan2 y x = atan (y / x).
Proof.
  intros Hx. unfold atan2.
  destruct (Rlt_dec 0 x); [reflexivity | lra].
Qed.

Lemma atan2_up (y : R) : 0 < y -> atan2 y 0 = PI / 2.
Proof.
  intros Hy. unfold atan2.
  destruct (Rlt_dec 0 0); [lra |].
  destruct (Rlt_dec 0 y); [reflexivity | lra].
Qed.

Lemma atan2_origin : atan2 0 0 = 0.
Proof.
  unfold atan2. destruct (Rlt_dec 0 0); [lra |]. reflexivity.
Qed.

Lemma sin_sq_le_1 (x : R) : 0 <= sin x * sin x <= 1.
Proof.
  pose proof (sin2_cos2 x) as H. unfold Rsqr in H.
  pose proof (Rle_0_sqr (sin x)) as Hs. pose proof (Rle_0_sqr (cos x)) as Hc.
  unfold Rsqr in Hs, Hc. lra.
Qed.

(** The angle behind a haversine value: for [0 <= x <= PI/2], the two
    roots are [sin x] and [cos x], and [atan2] gives [x] back. *)
Lemma atan2_sin_cos (x : R) :
  0 <= x <= PI / 2 ->
  atan2 (sqrt (sin x * sin x)) (sqrt (1 - sin x * sin x)) = x.
Proof.
  intros [Hlo Hhi].
  assert (Hs : 0 <= sin x) by (apply sin_ge_0; pose proof PI_RGT_0; lra).
  assert (Hc : 0 <= cos x) by (apply cos_ge_0; lra).
  assert (E : 1 - sin x * sin x = cos x * cos x).
  { pose proof (sin2_cos2 x) as H. unfold Rsqr in H. lra. }
  rewrite E, !sqrt_square by assumption.
  destruct (Req_dec x (PI / 2)) as [-> | Hne].
  - rewrite sin_PI2, cos_PI2. apply atan2_up. lra.
  - assert (Hc' : 0 < cos x) by (apply cos_gt_0; lra).
    rewrite atan2_right by assumption.
    change (sin x / cos x) with (tan x).
    apply atan_tan. lra.
Qed.

(** When the haversine value is [sin x * sin x] for a half-angle [x] in
    [[0, PI/2]], the last two lines of [distance] return the arc of
    angle [2 * x]. *)
Lemma arc_of_half_angle (radius a x : R) :
  0 <= x <= PI / 2 ->
  a = sin x * sin x ->
  (s1 ← py_sqrt a; s2 ← py_sqrt (1 - a); Ok (radius * (2 * atan2 s1 s2)))
  = Ok (radius * (2 * x)).
Proof.
  intros Hx ->.
  pose proof (sin_sq_le_1 x) as [H0 H1].
  rewrite (py_sqrt_ok (sin x * sin x)) by assumption. cbn.
  rewrite py_sqrt_ok by lra. cbn.
  rewrite atan2_sin_cos by assumption. reflexivity.
Qed.

(** A haversine value strictly between [1/2] and [1] gives an arc longer
    than a quarter of the circle. *)
Lemma arc_beyond_quarter (radius a : R) :
  0 < radius ->
  1 / 2 < a < 1 ->
  exists d,
    (s1 ← py_sqrt a; s2 ← py_sqrt (1 - a); Ok (radius * (2 * atan2 s1 s2)))
    = Ok d
    /\ radius * (PI / 2) < d.
Proof.
  intros Hr [Hlo Hhi].
  rewrite (py_sqrt_ok a) by lra. cbn.
  rewrite py_sqrt_ok by lra. cbn.
  eexists; split; [reflexivity |].
  assert (Hx : 0 < sqrt (1 - a)) by (apply sqrt_lt_R0; lra).
  assert (Hlt : sqrt (1 - a) < sqrt a) by (apply sqrt_lt_1; lra).
  rewrite atan2_right by assumption.
  assert (H1 : 1 < sqrt a / sqrt (1 - a)).
  { apply Rmult_lt_reg_r with (sqrt (1 - a)); [assumption |].
    unfold Rdiv. rewrite Rmult_assoc, Rinv_l by lra. lra. }
  apply atan_increasing in H1. rewrite atan_1 in H1.
  apply Rmult_lt_compat_l; lra.
Qed.

(** A haversine value above [1] makes the second [math.sqrt] raise. *)
Lemma arc_domain_error (radius a : R) :
  1 < a ->
  (s1 ← py_sqrt a; s2 ← py_sqrt (1 - a); Ok (radius * (2 * atan2 s1 s2)))
  = Raise MathDomainError.
Proof.
  intros Ha.
  rewrite (py_sqrt_ok a) by lra. cbn.
  rewrite py_sqrt_raise by lra. reflexivity.
Qed.

(** ** Evaluating [distance] *)

Lemma distance_hav (c1 c2 : Coordinate) :
  distance c1 c2 =
  (s1 ← py_sqrt (hav_code c1 c2); s2 ← py_sqrt (1 - hav_code c1 c2);
   Ok (EARTH_RADIUS * (2 * atan2 s1 s2))).
Proof. reflexivity. Qed.

Lemma distance_half_angle (c1 c2 : Coordinate) (x : R) :
  0 <= x <= PI / 2 ->
  hav_code c1 c2 = sin x * sin x ->
  distance c1 c2 = Ok (EARTH_RADIUS * (2 * x)).
Proof.
  intros Hx Ha. rewrite distance_hav. now apply arc_of_half_angle.
Qed.

Lemma sin_sq_neg (x : R) : sin (- x) * sin (- x) = sin x * sin x.
Proof. rewrite sin_neg. lra. Qed.

(** From a point on the equator the cross term vanishes, whatever the
    longitudes: only the difference of latitudes counts. *)
Lemma distance_from_equator (lon1 lat2 lon2 : R) :
  0 <= lat2 <= 180 ->
  distance (mkCoordinate 0 lon1) (mkCoordinate lat2 lon2)
  = Ok (EARTH_RADIUS * radians lat2).
Proof.
  intros Hlat.
  replace (radians lat2) with (2 * (radians lat2 / 2)) by lra.
  apply distance_half_angle.
  - unfold radians. pose proof PI_RGT_0. split; nra.
  - unfold hav_code; cbn [latitude longitude].
    replace (radians 0) with 0 by (unfold radians; lra).
    replace (lat2 - 0) with lat2 by lra. lra.
Qed.

Lemma distance_origin_equator_1E : distance origin equator_1E = Ok 0.
Proof.
  unfold origin, equator_1E. rewrite distance_from_equator by lra.
  f_equal. unfold radians. lra.
Qed.

Lemma distance_origin_lat30 :
  distance origin lat30_lon180 = Ok (EARTH_RADIUS * (PI / 6)).
Proof.
  unfold origin, lat30_lon180. rewrite distance_from_equator by lra.
  f_equal. unfold radians. lra.
Qed.

Lemma hav_lat30_origin :
  hav_code lat30_lon180 origin = sin (PI / 12) * sin (PI / 12) + PI / 6.
Proof.
  unfold hav_code, lat30_lon180, origin; cbn [latitude longitude].
  replace (radians (0 - 30) / 2) with (- (PI / 12)) by (unfold radians; lra).
  replace (radians (0 - 180) / 2) with (- (PI / 2)) by (unfold radians; lra).
  replace (radians 30) with (PI / 6) by (unfold radians; lra).
  replace (radians 0) with 0 by (unfold radians; lra).
  rewrite sin_sq_neg, cos_0, sin_neg, sin_PI2. lra.
Qed.

Lemma distance_lat30_origin :
  exists d, distance lat30_lon180 origin = Ok d
            /\ EARTH_RADIUS * (PI / 2) < d.
Proof.
  rewrite distance_hav. apply arc_beyond_quarter.
  - unfold EARTH_RADIUS. lra.
  - rewrite hav_lat30_origin.
    pose proof PI_bounds as [Hlo Hhi].
    assert (Hsin : 0 <= sin (PI / 12) < PI / 12).
    { split; [apply sin_ge_0; lra | apply sin_lt_x; lra]. }
    split; nra.
Qed.

Lemma hav_pole180_origin :
  hav_code (north_pole 180) origin = sin (PI / 4) * sin (PI / 4) + PI / 2.
Proof.
  unfold hav_code, north_pole, origin; cbn [latitude longitude].
  replace (radians (0 - 90) / 2) with (- (PI / 4)) by (unfold radians; lra).
  replace (radians (0 - 180) / 2) with (- (PI / 2)) by (unfold radians; lra).
  replace (radians 90) with (PI / 2) by (unfold radians; lra).
  replace (radians 0) with 0 by (unfold radians; lra).
  rewrite sin_sq_neg, cos_0, sin_neg, sin_PI2. lra.
Qed.

Lemma distance_pole180_origin :
  distance (north_pole 180) origin = Raise MathDomainError.
Proof.
  rewrite distance_hav. apply arc_domain_error.
  rewrite hav_pole180_origin.
  pose proof PI2_1. pose proof (sin_sq_le_1 (PI / 4)). lra.
Qed.

Lemma distance_pole0_origin :
  distance (north_pole 0) origin = Ok (EARTH_RADIUS * (PI / 2)).
Proof.
  replace (PI / 2) with (2 * (PI / 4)) by lra.
  apply distance_half_angle.
  - pose proof PI_RGT_0. lra.
  - unfold hav_code, north_pole, origin; cbn [latitude longitude].
    replace (radians (0 - 90) / 2) with (- (PI / 4)) by (unfold radians; lra).
    replace (radians (0 - 0) / 2) with 0 by (unfold radians; lra).
    rewrite sin_sq_neg, sin_0. lra.
Qed.

Lemma distance_origin_pole0 :
  distance origin (north_pole 0) = Ok (EARTH_RADIUS * (PI / 2)).
Proof.
  unfold origin, north_pole. rewrite distance_from_equator by lra.
  f_equal. unfold radians. lra.
Qed.

Lemma distance_pole_to_pole (lon : R) :
  distance (north_pole lon) (south_pole lon) = Ok (EARTH_RADIUS * PI).
Proof.
  replace PI with (2 * (PI / 2)) at 1 by lra.
  apply distance_half_angle.
  - pose proof PI_RGT_0. lra.
  - unfold hav_code, north_pole, south_pole; cbn [latitude longitude].
    replace (radians (-90 - 90) / 2) with (- (PI / 2))
      by (unfold radians; lra).
    replace (radians (lon - lon) / 2) with 0 by (unfold radians; lra).
    rewrite sin_sq_neg, sin_0. lra.
Qed.

Lemma haversine_spec_origin_equator_90E :
  haversine_spec origin equator_90E = Ok (6371 * (PI / 2)).
Proof.
  replace (PI / 2) with (2 * (PI / 4)) by lra.
  unfold haversine_spec, origin, equator_90E; cbn [latitude longitude].
  apply arc_of_half_angle.
  - pose proof PI_RGT_0. lra.
  - replace (radians (0 - 0) / 2) with 0 by (unfold radians; lra).
    replace (radians (90 - 0) / 2) with (PI / 4) by (unfold radians; lra).
    replace (radians 0) with 0 by (unfold radians; lra).
    rewrite sin_0, cos_0. lra.
Qed.

Lemma distance_origin_equator_90E : distance origin equator_90E = Ok 0.
Proof.
  unfold origin, equator_90E. rewrite distance_from_equator by lra.
  f_equal. unfold radians. lra.
Qed.

(** ** The distance function (claims C1 to C5) *)

(** C1 (fails on the code).  [distance] is not the haversine formula of
    the specification: the cross term is multiplied by [radians lat1]
    where the formula has [cos (radians lat1)].  From (0, 0) to (0, 90),
    a quarter of the equator, the code returns [0] and the formula
    [6371 * PI / 2]. *)
Theorem C1_distance_is_not_haversine :
  distance origin equator_90E = Ok 0
  /\ haversine_spec origin equator_90E = Ok (6371 * (PI / 2))
  /\ distance origin equator_90E <> haversine_spec origin equator_90E.
Proof.
  split; [apply distance_origin_equator_90E |].
  split; [apply haversine_spec_origin_equator_90E |].
  rewrite distance_origin_equator_90E, haversine_spec_origin_equator_90E.
  intros H. injection H as H. pose proof PI_RGT_0. lra.
Qed.

(** C2 (fails on the code).  [distance] is not symmetric: from (0, 0) to
    (30, 180) it returns [6371 * PI / 6], about 3336 km, and in the other
    direction more than [6371 * PI / 2], about 10007 km; the two are not
    close in the sense of [isclose]. *)
Theorem C2_distance_not_symmetric :
  exists d1 d2,
    distance origin lat30_lon180 = Ok d1
    /\ distance lat30_lon180 origin = Ok d2
    /\ d1 = EARTH_RADIUS * (PI / 6)
    /\ EARTH_RADIUS * (PI / 2) < d2
    /\ ~ isclose d1 d2.
Proof.
  destruct distance_lat30_origin as (d2 & Hd2 & Hlt).
  exists (EARTH_RADIUS * (PI / 6)), d2.
  split; [apply distance_origin_lat30 |].
  split; [assumption |]. split; [reflexivity |]. split; [assumption |].
  unfold isclose, EARTH_RADIUS in *. pose proof PI_RGT_0 as Hpi.
  rewrite (Rabs_left (6371 * (PI / 6) - d2)) by lra.
  rewrite (Rabs_right (6371 * (PI / 6))) by lra.
  rewrite (Rabs_right d2) by lra.
  rewrite Rmax_right by lra. lra.
Qed.

(** C3 (fails on the code).  [distance] is not total on the degree
    range: from (90, 180) to (0, 0), both in range, the haversine value is
    above [1] and [math.sqrt (1 - a)] raises [ValueError]. *)
Theorem C3_distance_raises_in_range :
  in_degree_range (north_pole 180)
  /\ in_degree_range origin
  /\ distance (north_pole 180) origin = Raise MathDomainError
  /\ exc_class MathDomainError = ClsValueError.
Proof.
  unfold in_degree_range, north_pole, origin; cbn [latitude longitude].
  repeat split; try lra.
  apply distance_pole180_origin.
Qed.

(** C4 (fails on the code).  From (0, 0) to (0, 1) [distance] returns
    [0], which is not within 0.1 of 111.19: the first latitude is [0], so
    the cross term, the only one that sees the longitudes, vanishes. *)
Theorem C4_distance_one_degree_is_zero :
  distance origin equator_1E = Ok 0
  /\ ~ Rabs (0 - 111.19) <= 0.1.
Proof.
  split; [apply distance_origin_equator_1E |].
  rewrite Rabs_left by lra. lra.
Qed.

(** C5.  From the North Pole (90, lon) to the South Pole (-90, lon), for
    every longitude, [distance] returns [6371 * PI], and that is within
    1 km of 20015.1. *)
Theorem C5_distance_pole_to_pole :
  forall lon : R,
    distance (mkCoordinate 90 lon) (mkCoordinate (-90) lon)
    = Ok (EARTH_RADIUS * PI)
    /\ Rabs (EARTH_RADIUS * PI - 20015.1) < 1.
Proof.
  intros lon. split; [apply (distance_pole_to_pole lon) |].
  pose proof PI_bounds as [Hlo Hhi]. unfold EARTH_RADIUS.
  apply Rabs_def1; lra.
Qed.

(** ** [min] with a key *)

Section PyMinFacts.
Context {A : Type} (key : A -> result R).

Lemma min_scan_first_minimum (rest : list A) :
  forall (best : A) (bk : R) (m : A),
    key best = Ok bk ->
    min_scan key best bk rest = Ok m ->
    first_minimum key (best :: rest) m.
Proof.
  induction rest as [| item rest' IH]; intros best bk m Hbest Hscan.
  - cbn in Hscan. injection Hscan as <-.
    exists [], [], bk. repeat split; auto.
  - cbn in Hscan. destruct (key item) as [k | e] eqn:Hitem; cbn in Hscan;
      [| discriminate].
    destruct (Rlt_dec k bk) as [Hlt | Hge].
    + destruct (IH item k m Hitem Hscan)
        as (pre & post & km & E & Hm & Hpre & Hpost).
      exists (best :: pre), post, km. rewrite E. repeat split; auto.
      constructor; [| assumption].
      exists bk. split; [assumption |].
      destruct pre as [| p pre']; cbn in E; injection E as <- _.
      * rewrite Hitem in Hm. injection Hm as <-. assumption.
      * inversion Hpre as [| ? ? (k' & Hk' & Hlt') _]; subst.
        rewrite Hitem in Hk'. injection Hk' as <-. lra.
    + destruct (IH best bk m Hbest Hscan)
        as (pre & post & km & E & Hm & Hpre & Hpost).
      destruct pre as [| p pre']; cbn in E; injection E as <- E'.
      * subst post. rewrite Hbest in Hm. injection Hm as <-.
        exists [], (item :: rest'), bk. repeat split; auto.
        constructor; [| assumption]. exists k. split; [assumption | lra].
      * subst rest'.
        exists (best :: item :: pre'), post, km. repeat split; auto.
        inversion Hpre as [| ? ? (k' & Hk' & Hlt') Hpre']; subst.
        rewrite Hbest in Hk'. injection Hk' as <-.
        constructor; [exists bk; auto |].
        constructor; [| assumption]. exists k. split; [assumption | lra].
Qed.

(** Whatever [min] returns is the first item of minimum key. *)
Lemma py_min_first_minimum (items : list A) (m : A) :
  py_min key items = Ok m -> first_minimum key items m.
Proof.
  destruct items as [| item rest]; cbn; [discriminate |].
  destruct (key item) as [k | e] eqn:Hitem; cbn; [| discriminate].
  now apply min_scan_first_minimum.
Qed.

Lemma min_scan_total (rest : list A) :
  forall (best : A) (bk : R),
    Forall (fun x => exists k, key x = Ok k) rest ->
    exists m, min_scan key best bk rest = Ok m.
Proof.
  induction rest as [| item rest' IH]; intros best bk Hall.
  - now exists best.
  - inversion Hall as [| ? ? (k & Hk) Hall']; subst. cbn. rewrite Hk. cbn.
    destruct (Rlt_dec k bk); now apply IH.
Qed.

(** [min] returns an item as soon as the sequence is not empty and no
    key raises. *)
Lemma py_min_total (items : list A) :
  items <> [] ->
  Forall (fun x => exists k, key x = Ok k) items ->
  exists m, py_min key items = Ok m.
Proof.
  intros Hne Hall. destruct items as [| item rest]; [congruence |].
  inversion Hall as [| ? ? (k & Hk) Hall']; subst. cbn. rewrite Hk. cbn.
  now apply min_scan_total.
Qed.

Lemma min_scan_raise (pre : list A) :
  forall (best : A) (bk : R) (x : A) (post : list A) (e : exception),
    Forall (fun y => exists k, key y = Ok k) pre ->
    key x = Raise e ->
    min_scan key best bk (pre ++ x :: post) = Raise e.
Proof.
  induction pre as [| item pre' IH]; intros best bk x post e Hall Hx.
  - cbn. now rewrite Hx.
  - inversion Hall as [| ? ? (k & Hk) Hall']; subst. cbn. rewrite Hk. cbn.
    destruct (Rlt_dec k bk); now apply IH.
Qed.

(** The first key that raises ends [min] with its exception. *)
Lemma py_min_raise (pre post : list A) (x : A) (e : exception) :
  Forall (fun y => exists k, key y = Ok k) pre ->
  key x = Raise e ->
  py_min key (pre ++ x :: post) = Raise e.
Proof.
  intros Hall Hx. destruct pre as [| item pre'].
  - cbn. now rewrite Hx.
  - inversion Hall as [| ? ? (k & Hk) Hall']; subst. cbn. rewrite Hk. cbn.
    now apply min_scan_raise.
Qed.
(** Two items with the same key: the first one is kept. *)
Lemma py_min_tie (a b : A) (k : R) :
  key a = Ok k -> key b = Ok k -> py_min key [a; b] = Ok a.
Proof.
  intros Ha Hb. cbn. rewrite Ha. cbn. rewrite Hb. cbn.
  destruct (Rlt_dec k k); [lra | reflexivity].
Qed.
End PyMinFacts.

(** ** The nearest city (claims C6, C7 and C9) *)

(** When [closest_city] returns, it returns the first candidate of
    minimum [distance city coordinate]. *)
Lemma closest_city_first_minimum (q : Coordinate) (cities : list City)
  (c : City) :
  closest_city q cities = Ok c ->
  first_minimum (fun city : City => distance city q) cities c.
Proof. apply py_min_first_minimum. Qed.

(** [closest_city] returns as soon as there is a candidate and every
    [distance city coordinate] is defined. *)
Lemma closest_city_total (q : Coordinate) (cities : list City) :
  cities <> [] ->
  Forall (fun city : City => exists d, distance city q = Ok d) cities ->
  exists c, closest_city q cities = Ok c.
Proof. apply py_min_total. Qed.

(** Both together: with a candidate and no raising key, [closest_city]
    returns the first candidate of minimum key. *)
Lemma closest_city_spec (q : Coordinate) (cities : list City) :
  cities <> [] ->
  Forall (fun city : City => exists d, distance city q = Ok d) cities ->
  exists c,
    closest_city q cities = Ok c
    /\ first_minimum (fun city : City => distance city q) cities c.
Proof.
  intros Hne Hall.
  destruct (closest_city_total q cities Hne Hall) as (c & Hc).
  exists c. split; [assumption | now apply closest_city_first_minimum].
Qed.

Lemma closest_city_pole180 :
  closest_city origin [city_pole_180] = Raise MathDomainError.
Proof.
  apply (py_min_raise _ [] []); [constructor |].
  apply distance_pole180_origin.
Qed.

(** C6 (fails on the code).  With the single candidate (90, 180) and
    the query (0, 0), [closest_city] returns no candidate: the key
    [distance city coordinate] raises [ValueError], and [min] with it. *)
Theorem C6_closest_city_raises :
  [city_pole_180] <> []
  /\ closest_city origin [city_pole_180] = Raise MathDomainError.
Proof.
  split; [discriminate | apply closest_city_pole180].
Qed.

(** C7.  With no candidate, [closest_city] raises for every query: the
    [ValueError] of [min] on an empty sequence.  Nothing catches it in
    [write_closest_cities], which ends with the same exception at its
    first coordinate, the header being the only row written. *)
Theorem C7_closest_city_empty :
  forall q : Coordinate,
    closest_city q [] = Raise MinEmptySequence
    /\ exc_class MinEmptySequence = ClsValueError
    /\ forall rest : list Coordinate,
         write_closest_cities (q :: rest) [] =
         ([header_row], Raise MinEmptySequence).
Proof.
  intros q. repeat split.
Qed.

Lemma closest_city_A_B : closest_city origin [city_A; city_B] = Ok city_B.
Proof.
  destruct distance_lat30_origin as (dA & HdA & Hlt).
  unfold closest_city; cbn [py_min].
  change (coord city_A) with lat30_lon180. rewrite HdA.
  cbn [mbind result_bind min_scan].
  change (coord city_B) with (north_pole 0). rewrite distance_pole0_origin.
  cbn [mbind result_bind].
  destruct (Rlt_dec (EARTH_RADIUS * (PI / 2)) dA); [reflexivity | lra].
Qed.

Lemma query_first_A_B :
  py_min (fun city : City => distance origin city) [city_A; city_B]
  = Ok city_A.
Proof.
  cbn [py_min].
  change (coord city_A) with lat30_lon180. rewrite distance_origin_lat30.
  cbn [mbind result_bind min_scan].
  change (coord city_B) with (north_pole 0). rewrite distance_origin_pole0.
  cbn [mbind result_bind].
  destruct (Rlt_dec (EARTH_RADIUS * (PI / 2)) (EARTH_RADIUS * (PI / 6)))
    as [Hlt | _]; [| reflexivity].
  unfold EARTH_RADIUS in Hlt. pose proof PI_RGT_0. lra.
Qed.

(** C9.  The key of the scan is [distance city coordinate], candidate
    first: what [closest_city] returns is the first minimum of that key.
    The order matters, because [distance] is not symmetric: for the query
    (0, 0) and the candidates A = (30, 180) and B = (90, 0) the code
    returns B, while the key [distance coordinate city] would choose A. *)
Theorem C9_candidate_first :
  (forall (q : Coordinate) (cities : list City) (c : City),
      closest_city q cities = Ok c ->
      first_minimum (fun city : City => distance city q) cities c)
  /\ closest_city origin [city_A; city_B] = Ok city_B
  /\ py_min (fun city : City => distance origin city) [city_A; city_B]
     = Ok city_A
  /\ city_A <> city_B.
Proof.
  split; [exact closest_city_first_minimum |].
  split; [exact closest_city_A_B |].
  split; [exact query_first_A_B |].
  discriminate.
Qed.

(** The example of C9, read off the theorem. *)
Lemma C9_candidate_first_witness :
  closest_city origin [city_A; city_B] = Ok city_B
  /\ first_minimum (fun city : City => distance city origin)
       [city_A; city_B] city_B.
Proof.
  split.
  - exact (proj1 (proj2 C9_candidate_first)).
  - apply (proj1 C9_candidate_first).
    exact (proj1 (proj2 C9_candidate_first)).
Defined.

(** ** Batch matching (claim C8) *)

Lemma write_matches_rows (cities : list City) (coordinates : list Coordinate) :
  forall (chosen : list City) (file : csv_file),
    Forall2 (fun q c => closest_city q cities = Ok c) coordinates chosen ->
    write_matches coordinates cities file
    = (file ++ zip_with match_row coordinates chosen, Ok tt).
Proof.
  induction coordinates as [| q rest IH]; intros chosen file Hall.
  - inversion Hall; subst. cbn. now rewrite app_nil_r.
  - inversion Hall as [| ? c ? chosen' Hq Hrest]; subst.
    cbn [write_matches]. rewrite Hq, (IH chosen') by assumption.
    now rewrite <- app_assoc.
Qed.

(** When no [closest_city] raises, the file holds the header and then one
    row per coordinate, in the order of the coordinates, each with the
    coordinate's latitude and longitude and the name of its city. *)
Lemma write_closest_cities_rows (coordinates : list Coordinate)
  (cities chosen : list City) :
  Forall2 (fun q c => closest_city q cities = Ok c) coordinates chosen ->
  write_closest_cities coordinates cities
  = (header_row :: zip_with match_row coordinates chosen, Ok tt).
Proof.
  intros Hall. unfold write_closest_cities.
  now rewrite (write_matches_rows cities coordinates chosen).
Qed.

(** The first coordinate whose [closest_city] raises ends the call; the
    rows of the coordinates before it stay in the file. *)
Lemma write_matches_raise (cities : list City) (pre : list Coordinate) :
  forall (chosen : list City) (q : Coordinate) (post : list Coordinate)
         (e : exception) (file : csv_file),
    Forall2 (fun q c => closest_city q cities = Ok c) pre chosen ->
    closest_city q cities = Raise e ->
    write_matches (pre ++ q :: post) cities file
    = (file ++ zip_with match_row pre chosen, Raise e).
Proof.
  induction pre as [| p pre' IH]; intros chosen q post e file Hall Hq.
  - inversion Hall; subst. cbn. now rewrite Hq, app_nil_r.
  - inversion Hall as [| ? c ? chosen' Hp Hrest]; subst.
    cbn [app write_matches]. rewrite Hp, (IH chosen' q post e) by assumption.
    now rewrite <- app_assoc.
Qed.

(** C8 (fails on the code).  For the single query (0, 0) and the single
    candidate (90, 180), [write_closest_cities] produces no row for the
    query: [closest_city] raises, and the file holds the header only. *)
Theorem C8_batch_raises :
  [city_pole_180] <> []
  /\ write_closest_cities [origin] [city_pole_180]
     = ([header_row], Raise MathDomainError).
Proof.
  split; [discriminate |].
  unfold write_closest_cities. cbn [write_matches].
  now rewrite closest_city_pole180.
Qed.

(** ** Parsing the coordinates (claim C10) *)

(** Induction over a list two items at a time, as the loop reads it. *)
Lemma list_pair_ind {A : Type} (P : list A -> Prop) :
  P [] ->
  (forall x, P [x]) ->
  (forall x y l, P l -> P (x :: y :: l)) ->
  forall l, P l.
Proof.
  intros Hnil Hone Hstep l.
  enough (H : P l /\ forall x, P (x :: l)) by apply H.
  induction l as [| y l [IH1 IH2]]; split; auto.
Qed.

Section ParseFacts.
Variable parse_float : string -> option R.


(** The list built so far is only ever extended at its end. *)
Lemma parse_loop_acc (rows : list (gmap string (option string))) :
  forall acc : list Coordinate,
    parse_loop parse_float rows acc
    = (coords ← parse_loop parse_float rows []; Ok (acc ++ coords)).
Proof.
  induction rows as [| r | r1 r2 rows IH] using list_pair_ind; intros acc.
  - cbn. now rewrite app_nil_r.
  - reflexivity.
  - cbn [parse_loop].
    destruct (value_of parse_float r1) as [lat | e]; [| reflexivity].
    destruct (value_of parse_float r2) as [lon | e]; [| reflexivity].
    cbn [mbind result_bind].
    rewrite (IH (acc ++ [mkCoordinate lat lon])),
            (IH ([] ++ [mkCoordinate lat lon])).
    destruct (parse_loop parse_float rows []) as [coords | e]; [| reflexivity].
    cbn. now rewrite <- app_assoc.
Qed.

Lemma parse_coordinates_pair (r1 r2 : gmap string (option string))
  (rows : list (gmap string (option string))) :
  parse_coordinates parse_float (r1 :: r2 :: rows) =
  (lat ← value_of parse_float r1; lon ← value_of parse_float r2;
   coords ← parse_coordinates parse_float rows;
   Ok (mkCoordinate lat lon :: coords)).
Proof.
  unfold parse_coordinates. cbn [parse_loop].
  destruct (value_of parse_float r1) as [lat | e]; [| reflexivity].
  destruct (value_of parse_float r2) as [lon | e]; [| reflexivity].
  cbn [mbind result_bind]. now rewrite parse_loop_acc.
Qed.

(** [parse_coordinates] returns exactly the lists that pair the rows. *)
Lemma parse_coordinates_paired (rows : list (gmap string (option string))) :
  forall coords : list Coordinate,
    parse_coordinates parse_float rows = Ok coords
    <-> paired parse_float rows coords.
Proof.
  induction rows as [| r | r1 r2 rows IH] using list_pair_ind; intros coords.
  - split.
    + intros H. injection H as <-. constructor.
    + intros H. inversion H. reflexivity.
  - split; [discriminate | intros H; inversion H].
  - rewrite parse_coordinates_pair. split.
    + destruct (value_of parse_float r1) as [lat | e] eqn:H1; [| discriminate].
      destruct (value_of parse_float r2) as [lon | e] eqn:H2; [| discriminate].
      cbn [mbind result_bind].
      destruct (parse_coordinates parse_float rows) as [cs | e] eqn:Hrows;
        [| discriminate].
      cbn. intros H. injection H as <-.
      constructor; auto. now apply IH.
    + intros H. inversion H as [| ? ? ? lat lon cs H1 H2 Hrest]; subst.
      rewrite H1, H2. cbn [mbind result_bind].
      apply IH in Hrest. now rewrite Hrest.
Qed.

Lemma paired_length (rows : list (gmap string (option string)))
  (coords : list Coordinate) :
  paired parse_float rows coords -> length rows = (2 * length coords)%nat.
Proof.
  induction 1 as [| r1 r2 rows lat lon coords _ _ _ IH]; cbn in *; lia.
Qed.

(** A row whose [value] field holds a string raises nothing but the
    [ValueError] of [float]. *)
Lemma value_of_string (row : gmap string (option string)) (s : string) :
  row !! "value" = Some (Some s) ->
  (exists x, value_of parse_float row = Ok x)
  \/ value_of parse_float row = Raise (FloatParseError s).
Proof.
  intros H. unfold value_of, getitem. rewrite H.
  cbn. destruct (parse_float s); eauto.
Qed.

(** With an odd number of rows, [parse_coordinates] raises. *)
Lemma parse_coordinates_odd (rows : list (gmap string (option string))) :
  Nat.odd (length rows) = true ->
  exists e, parse_coordinates parse_float rows = Raise e
    /\ (Forall (fun row => exists s, row !! "value" = Some (Some s)) rows ->
        exc_class e = ClsValueError)
    /\ (Forall (fun row => exists x, value_of parse_float row = Ok x) rows ->
        e = InvalidCoordinatesFile).
Proof.
  induction rows as [| r | r1 r2 rows IH] using list_pair_ind; intros Hodd.
  - discriminate.
  - exists InvalidCoordinatesFile. auto.
  - destruct (IH Hodd) as (e & He & Hcls & Hinv).
    rewrite parse_coordinates_pair.
    destruct (value_of parse_float r1) as [lat | e1] eqn:H1.
    + destruct (value_of parse_float r2) as [lon | e2] eqn:H2.
      * cbn [mbind result_bind]. rewrite He. exists e.
        split; [reflexivity |]. split; intros Hall.
        -- apply Hcls. now do 2 apply Forall_inv_tail in Hall.
        -- apply Hinv. now do 2 apply Forall_inv_tail in Hall.
      * exists e2. split; [reflexivity |]. split; intros Hall.
        -- apply Forall_inv_tail, Forall_inv in Hall.
           destruct Hall as (s & Hs).
           destruct (value_of_string r2 s Hs) as [(x & Hx) | Hx];
             rewrite Hx in H2; [discriminate |].
           now injection H2 as <-.
        -- apply Forall_inv_tail, Forall_inv in Hall.
           destruct Hall as (x & Hx). congruence.
    + exists e1. split; [reflexivity |]. split; intros Hall.
      * apply Forall_inv in Hall. destruct Hall as (s & Hs).
        destruct (value_of_string r1 s Hs) as [(x & Hx) | Hx];
          rewrite Hx in H1; [discriminate |].
        now injection H1 as <-.
      * apply Forall_inv in Hall. destruct Hall as (x & Hx). congruence.
Qed.
End ParseFacts.

Lemma value_of_value_row (parse_float : string -> option R) (s : string)
  (x : R) :
  parse_float s = Some x -> value_of parse_float (value_row s) = Ok x.
Proof.
  intros H. unfold value_of, getitem, value_row.
  rewrite lookup_singleton_eq. cbn. now rewrite H.
Qed.

Lemma value_of_latitude_row (parse_float : string -> option R) (s : string) :
  value_of parse_float (latitude_row s) = Raise (KeyError "value").
Proof.
  unfold value_of, getitem, latitude_row.
  now rewrite lookup_singleton_ne by discriminate.
Qed.

(** Three rows of a file whose header is [latitude], not [value]: an odd
    number of rows, and the exception is the [KeyError] of the first
    pair, not a [ValueError]. *)
Lemma C10_odd_rows_KeyError :
  Nat.odd (length rows_latitude) = true
  /\ parse_coordinates sample_float rows_latitude = Raise (KeyError "value")
  /\ exc_class (KeyError "value") <> ClsValueError.
Proof.
  split; [reflexivity |]. split; [| discriminate].
  unfold rows_latitude. rewrite parse_coordinates_pair.
  now rewrite value_of_latitude_row.
Qed.

(** C10 (amended).  [parse_coordinates] returns exactly the lists made of
    the rows two at a time, the ['value'] field of the first row of each
    pair as latitude and that of the second as longitude.  With an odd
    number of rows it returns no list and raises: a [ValueError] when the
    ['value'] field of every row is a string, and the
    [ValueError('Invalid coordinates file')] of line 41 when [float]
    accepts every one of them. *)
Theorem C10_parse_coordinates_pairs :
  forall (parse_float : string -> option R)
         (rows : list (gmap string (option string))),
    (forall coords : list Coordinate,
        parse_coordinates parse_float rows = Ok coords
        <-> paired parse_float rows coords)
    /\ (Nat.odd (length rows) = true ->
        exists e,
          parse_coordinates parse_float rows = Raise e
          /\ (Forall (fun row => exists s, row !! "value" = Some (Some s)) rows
              -> exc_class e = ClsValueError)
          /\ (Forall (fun row => exists x, value_of parse_float row = Ok x)
                rows
              -> e = InvalidCoordinatesFile)).
Proof.
  intros parse_float rows. split.
  - apply parse_coordinates_paired.
  - apply parse_coordinates_odd.
Qed.

(** Three rows with parsable values raise at the unpaired row; two rows
    give one coordinate. *)
Lemma C10_parse_coordinates_pairs_witness :
  parse_coordinates sample_float rows_value = Raise InvalidCoordinatesFile
  /\ parse_coordinates sample_float [value_row "50.08"; value_row "14.42"]
     = Ok [mkCoordinate 50.08 14.42].
Proof.
  split.
  - destruct (proj2 (C10_parse_coordinates_pairs sample_float rows_value)
                eq_refl) as (e & He & _ & Hinv).
    rewrite He. f_equal. apply Hinv.
    unfold rows_value.
    repeat constructor; eexists; apply value_of_value_row; reflexivity.
  - apply (proj1 (C10_parse_coordinates_pairs sample_float _)).
    repeat constructor; apply value_of_value_row; reflexivity.
Defined.

(** * Further properties of the code *)

(** ** [Coordinate.distance] *)



(** Without the cross term, [distance] is the arc between the two
    latitudes. *)
Lemma distance_cross_free (c1 c2 : Coordinate) :
  radians (latitude c1) * cos (radians (latitude c2))
  * sin (radians (longitude c2 - longitude c1) / 2)
  * sin (radians (longitude c2 - longitude c1) / 2) = 0 ->
  -180 <= latitude c2 - latitude c1 <= 180 ->
  distance c1 c2
  = Ok (EARTH_RADIUS * radians (Rabs (latitude c2 - latitude c1))).
Proof.
  intros Hcross Hrange. pose proof PI_RGT_0 as Hpi.
  set (dl := latitude c2 - latitude c1) in *.
  replace (radians (Rabs dl)) with (2 * (radians (Rabs dl) / 2)) by lra.
  apply distance_half_angle.
  - unfold radians.
    assert (0 <= Rabs dl <= 180)
      by (split; [apply Rabs_pos | apply Rabs_le; lra]).
    split; nra.
  - unfold hav_code. fold dl. rewrite Hcross, Rplus_0_r.
    unfold Rabs. destruct (Rcase_abs dl) as [Hneg | Hpos]; [| reflexivity].
    replace (radians (- dl) / 2) with (- (radians dl / 2))
      by (unfold radians; lra).
    now rewrite sin_sq_neg.
Qed.

(** The distance from a point to itself is [0], for every point. *)
Theorem distance_self (c : Coordinate) : distance c c = Ok 0.
Proof.
  rewrite distance_cross_free.
  - f_equal. replace (latitude c - latitude c) with 0 by lra.
    rewrite Rabs_R0. unfold radians, EARTH_RADIUS. lra.
  - replace (longitude c - longitude c) with 0 by lra.
    replace (radians 0 / 2) with 0 by (unfold radians; lra).
    rewrite sin_0. lra.
  - lra.
Qed.

(** Between two points of the same longitude, [distance] is the length
    of the meridian arc, in both directions. *)
Theorem distance_same_longitude (lat1 lat2 lon : R) :
  -180 <= lat2 - lat1 <= 180 ->
  distance (mkCoordinate lat1 lon) (mkCoordinate lat2 lon)
  = Ok (EARTH_RADIUS * radians (Rabs (lat2 - lat1)))
  /\ distance (mkCoordinate lat2 lon) (mkCoordinate lat1 lon)
     = distance (mkCoordinate lat1 lon) (mkCoordinate lat2 lon).
Proof.
  intros Hrange.
  assert (Hzero : forall l1 l2 : R,
             radians l1 * cos (radians l2)
             * sin (radians (lon - lon) / 2) * sin (radians (lon - lon) / 2)
             = 0).
  { intros l1 l2. replace (lon - lon) with 0 by lra.
    replace (radians 0 / 2) with 0 by (unfold radians; lra).
    rewrite sin_0. lra. }
  rewrite !distance_cross_free; cbn [latitude longitude];
    try apply Hzero; try lra.
  split; [reflexivity |].
  now rewrite Rabs_minus_sym.
Qed.

Lemma distance_same_longitude_witness :
  distance (mkCoordinate 50 14) (mkCoordinate 40 14)
  = Ok (EARTH_RADIUS * radians (Rabs (40 - 50))).
Proof.
  apply (distance_same_longitude 50 40 14). lra.
Defined.

(** From a point of latitude [0], [distance] does not see the
    longitudes: the result is the arc of the second latitude alone. *)
Theorem distance_from_equator_ignores_longitude (lon1 lat2 lon2 : R) :
  -180 <= lat2 <= 180 ->
  distance (mkCoordinate 0 lon1) (mkCoordinate lat2 lon2)
  = Ok (EARTH_RADIUS * radians (Rabs lat2)).
Proof.
  intros Hrange.
  rewrite distance_cross_free; cbn [latitude longitude].
  - now replace (lat2 - 0) with lat2 by lra.
  - replace (radians 0) with 0 by (unfold radians; lra). lra.
  - lra.
Qed.

Lemma distance_from_equator_ignores_longitude_witness :
  distance (mkCoordinate 0 0) (mkCoordinate 0 180)
  = Ok (EARTH_RADIUS * radians (Rabs 0)).
Proof.
  apply (distance_from_equator_ignores_longitude 0 0 180). lra.
Defined.

(** ** The nearest city and the batch, continued *)

Lemma closest_city_spec_witness :
  exists c,
    closest_city origin [city_A; city_B] = Ok c
    /\ first_minimum (fun city : City => distance city origin)
         [city_A; city_B] c.
Proof.
  apply closest_city_spec; [discriminate |].
  constructor.
  - destruct distance_lat30_origin as (d & Hd & _). now exists d.
  - constructor; [| constructor]. eexists. apply distance_pole0_origin.
Defined.

(** The candidates are visited in order and the first key that raises
    ends the call with its exception, whatever the candidates before it
    were. *)
Theorem closest_city_first_raise (q : Coordinate) (pre post : list City)
  (x : City) (e : exception) :
  Forall (fun city : City => exists d, distance city q = Ok d) pre ->
  distance x q = Raise e ->
  closest_city q (pre ++ x :: post) = Raise e.
Proof.
  intros Hpre Hx. unfold closest_city.
  now apply (py_min_raise (fun city : City => distance city q)).
Qed.

Lemma closest_city_first_raise_witness :
  closest_city origin ([city_B] ++ city_pole_180 :: [city_A])
  = Raise MathDomainError.
Proof.
  apply closest_city_first_raise.
  - constructor; [| constructor]. eexists. apply distance_pole0_origin.
  - apply distance_pole180_origin.
Defined.

Lemma write_closest_cities_rows_witness :
  write_closest_cities [origin] [city_A; city_B]
  = (header_row :: zip_with match_row [origin] [city_B], Ok tt).
Proof.
  apply write_closest_cities_rows.
  constructor; [apply closest_city_A_B | constructor].
Defined.

Lemma distance_pole0_antimeridian :
  distance (north_pole 0) (mkCoordinate 0 180) = Raise MathDomainError.
Proof.
  rewrite distance_hav. apply arc_domain_error.
  unfold hav_code, north_pole; cbn [latitude longitude].
  replace (radians (0 - 90) / 2) with (- (PI / 4)) by (unfold radians; lra).
  replace (radians (180 - 0) / 2) with (PI / 2) by (unfold radians; lra).
  replace (radians 90) with (PI / 2) by (unfold radians; lra).
  replace (radians 0) with 0 by (unfold radians; lra).
  rewrite sin_sq_neg, cos_0, sin_PI2.
  pose proof PI2_1. pose proof (sin_sq_le_1 (PI / 4)). lra.
Qed.

(** When [closest_city] raises at some coordinate, the call ends there
    with that exception, and the file holds the header and the rows of the
    coordinates before it: no row of a later coordinate is written. *)
Theorem write_closest_cities_partial (cities chosen : list City)
  (pre post : list Coordinate) (q : Coordinate) (e : exception) :
  Forall2 (fun p c => closest_city p cities = Ok c) pre chosen ->
  closest_city q cities = Raise e ->
  write_closest_cities (pre ++ q :: post) cities
  = (header_row :: zip_with match_row pre chosen, Raise e).
Proof.
  intros Hpre Hq. unfold write_closest_cities.
  now rewrite (write_matches_raise cities pre chosen q post e).
Qed.

Lemma write_closest_cities_partial_witness :
  write_closest_cities ([origin] ++ mkCoordinate 0 180 :: [origin])
    [city_B]
  = (header_row :: zip_with match_row [origin] [city_B],
     Raise MathDomainError).
Proof.
  apply write_closest_cities_partial.
  - constructor; [| constructor].
    unfold closest_city. cbn [py_min].
    change (coord city_B) with (north_pole 0).
    now rewrite distance_pole0_origin.
  - apply (py_min_raise _ [] []); [constructor |].
    apply distance_pole0_antimeridian.
Defined.

(** ** [parse_coordinates], continued *)

Section ParseMore.
Variable parse_float : string -> option R.

(** When [parse_coordinates] returns, it returns half as many
    coordinates as there are rows. *)
Theorem parse_coordinates_length (rows : list (gmap string (option string)))
  (coords : list Coordinate) :
  parse_coordinates parse_float rows = Ok coords ->
  length rows = (2 * length coords)%nat.
Proof.
  intros H. apply parse_coordinates_paired in H.
  now apply paired_length in H.
Qed.

Lemma value_of_same_field (r r' : gmap string (option string)) :
  r !! "value" = r' !! "value" ->
  value_of parse_float r = value_of parse_float r'.
Proof. intros H. unfold value_of, getitem. now rewrite H. Qed.

(** Only the ['value'] field of a row is read: rows that agree on it give
    the same outcome, whatever their other fields are. *)
Theorem parse_coordinates_value_only
  (rows rows' : list (gmap string (option string))) :
  Forall2 (fun r r' => r !! "value" = r' !! "value") rows rows' ->
  parse_coordinates parse_float rows = parse_coordinates parse_float rows'.
Proof.
  revert rows'.
  induction rows as [| r | r1 r2 rows IH] using list_pair_ind;
    intros rows' Hall.
  - now inversion Hall.
  - inversion Hall as [| ? r' ? tl' _ Htl]; subst. now inversion Htl.
  - inversion Hall as [| ? r1' ? tl1 H1 Htl1]; subst.
    inversion Htl1 as [| ? r2' ? tl2 H2 Htl2]; subst.
    rewrite !parse_coordinates_pair.
    rewrite (value_of_same_field r1 r1' H1), (value_of_same_field r2 r2' H2).
    now rewrite (IH tl2 Htl2).
Qed.

(** Complete pairs at the head of the file are parsed on their own: the
    outcome is their coordinates followed by the outcome of the rest. *)
Theorem parse_coordinates_app (pre rest : list (gmap string (option string)))
  (coords0 : list Coordinate) :
  paired parse_float pre coords0 ->
  parse_coordinates parse_float (pre ++ rest)
  = (coords ← parse_coordinates parse_float rest; Ok (coords0 ++ coords)).
Proof.
  induction 1 as [| r1 r2 rows lat lon coords H1 H2 _ IH].
  - cbn [app]. now destruct (parse_coordinates parse_float rest).
  - cbn [app]. rewrite parse_coordinates_pair, H1, H2, IH.
    cbn [mbind result_bind].
    now destruct (parse_coordinates parse_float rest).
Qed.
End ParseMore.

Lemma parse_coordinates_length_witness :
  length [value_row "50.08"; value_row "14.42"]
  = (2 * length [mkCoordinate 50.08 14.42])%nat.
Proof.
  apply (parse_coordinates_length sample_float).
  apply parse_coordinates_paired.
  repeat constructor; apply value_of_value_row; reflexivity.
Defined.

(** ** [parse_cities] and [write_coordinates] *)

Lemma city_of_answer_name (line : string) (geo : geo_answer) (city : City) :
  city_of_answer line geo = Some city -> name city = line.
Proof.
  destruct geo as [| | numbers texts]; cbn; try discriminate.
  destruct (geo_number numbers "lat"); cbn; [| discriminate].
  destruct (geo_number numbers "lng"); cbn; [| discriminate].
  now intros [= <-].
Qed.

Lemma info_row_shape (lat lon : R) (geo : geo_answer) (row : list cell) :
  info_row lat lon geo = Some row ->
  exists country city address,
    row = [Num lat; Num lon; country; city; address].
Proof.
  destruct geo as [| | numbers texts]; cbn; try discriminate.
  destruct (geo_item numbers texts "country") as [c1 |]; cbn;
    [| discriminate].
  destruct (geo_item numbers texts "city") as [c2 |]; cbn; [| discriminate].
  destruct (geo_item numbers texts "address") as [c3 |]; cbn;
    [| discriminate].
  intros [= <-]. now exists c1, c2, c3.
Qed.

Section ServiceFacts.
Variable parse_float : string -> option R.
Variable strip : string -> string.
Variable world : Type.
Variable arcgis : location -> world -> geo_answer * world.

Lemma cities_loop_accounts (lines : list string) :
  forall (cities : list City) (out : list message) (w : world),
    exists (found : list City) (failed : list string) (w' : world),
      cities_loop strip world arcgis lines cities out w
      = (cities ++ found, out ++ (FailedLocation <$> failed), w')
      /\ sublist (name <$> found) (strip <$> lines)
      /\ sublist failed (strip <$> lines)
      /\ (name <$> found) ++ failed ≡ₚ strip <$> lines.
Proof.
  induction lines as [| line rest IH]; intros cities out w.
  - exists [], [], w. cbn. rewrite !app_nil_r. repeat split; constructor.
  - cbn [cities_loop]. unfold geocode.
    destruct (arcgis (Place (strip line)) w) as [geo w1].
    destruct (city_of_answer (strip line) geo) as [city |] eqn:Hcity.
    + destruct (IH (cities ++ [city]) out w1)
        as (found & failed & w' & -> & Hfound & Hfailed & Hperm).
      apply city_of_answer_name in Hcity.
      exists (city :: found), failed, w'. rewrite <- app_assoc. cbn.
      rewrite Hcity. repeat split.
      * now constructor.
      * now constructor.
      * now rewrite Hperm.
    + destruct (IH cities (out ++ [FailedLocation (strip line)]) w1)
        as (found & failed & w' & -> & Hfound & Hfailed & Hperm).
      exists found, (strip line :: failed), w'. rewrite <- app_assoc. cbn.
      repeat split.
      * now constructor.
      * now constructor.
      * now rewrite <- Permutation_middle, Hperm.
Qed.

(** [parse_cities] raises on a file without a line and then only, before
    anything is asked or printed.  Otherwise the first line is skipped and
    every other line is accounted for once: either it names a returned
    city, or it is printed as failed; both keep the order of the file. *)
Theorem parse_cities_accounts (file : list string) (out : list message)
  (w : world) :
  match file with
  | [] => parse_cities strip world arcgis file out w
          = (Raised StopIteration, out, w)
  | _ :: lines =>
      exists (cities : list City) (failed : list string) (w' : world),
        parse_cities strip world arcgis file out w
        = (Returned cities, out ++ (FailedLocation <$> failed), w')
        /\ sublist (name <$> cities) (strip <$> lines)
        /\ sublist failed (strip <$> lines)
        /\ (name <$> cities) ++ failed ≡ₚ strip <$> lines
  end.
Proof.
  destruct file as [| header lines]; [reflexivity |].
  destruct (cities_loop_accounts lines [] out w)
    as (found & failed & w' & Hloop & Hrest).
  exists found, failed, w'. split; [| exact Hrest].
  unfold parse_cities. now rewrite Hloop.
Qed.

Lemma info_loop_accounts (coordinates : list Coordinate) :
  forall (file : csv_file) (out : list message) (w : world),
    exists (rows : csv_file) (written failed : list Coordinate)
           (w' : world),
      info_loop world arcgis coordinates file out w
      = (file ++ rows,
         out ++ ((fun c => FailedCity (latitude c) (longitude c)) <$> failed),
         w')
      /\ Forall2 (fun c row => exists country city address,
                     row = [Num (latitude c); Num (longitude c);
                            country; city; address]) written rows
      /\ sublist written coordinates
      /\ sublist failed coordinates
      /\ written ++ failed ≡ₚ coordinates.
Proof.
  induction coordinates as [| c rest IH]; intros file out w.
  - exists [], [], [], w. cbn. rewrite !app_nil_r.
    repeat split; constructor.
  - cbn [info_loop iter_Coordinate]. unfold geocode.
    destruct (arcgis (Point (latitude c) (longitude c)) w) as [geo w1].
    destruct (info_row (latitude c) (longitude c) geo) as [row |] eqn:Hrow.
    + destruct (IH (file ++ [row]) out w1)
        as (rows & written & failed & w' & -> & Hrows & Hw & Hf & Hperm).
      apply info_row_shape in Hrow.
      exists (row :: rows), (c :: written), failed, w'.
      rewrite <- app_assoc. cbn. repeat split.
      * now constructor.
      * now constructor.
      * now constructor.
      * now rewrite Hperm.
    + destruct (IH file (out ++ [FailedCity (latitude c) (longitude c)]) w1)
        as (rows & written & failed & w' & -> & Hrows & Hw & Hf & Hperm).
      exists rows, written, (c :: failed), w'.
      rewrite <- app_assoc. cbn. repeat split.
      * assumption.
      * now constructor.
      * now constructor.
      * now rewrite <- Permutation_middle, Hperm.
Qed.

End ServiceFacts.

Lemma write_matches_ok_inv (cities : list City)
  (coordinates : list Coordinate) :
  forall (file file' : csv_file),
    write_matches coordinates cities file = (file', Ok tt) ->
    exists chosen,
      Forall2 (fun q c => closest_city q cities = Ok c) coordinates chosen
      /\ file' = file ++ zip_with match_row coordinates chosen.
Proof.
  induction coordinates as [| q rest IH]; intros file file' H.
  - cbn in H. injection H as <-. exists []. split; [constructor |].
    cbn. now rewrite app_nil_r.
  - cbn [write_matches] in H.
    destruct (closest_city q cities) as [c | e] eqn:Hq; [| discriminate].
    destruct (IH _ _ H) as (chosen & Hall & ->).
    exists (c :: chosen). split; [now constructor |].
    cbn. now rewrite <- app_assoc.
Qed.

Section ProgramFacts.
Variable parse_float : string -> option R.
Variable strip : string -> string.
Variable world : Type.
Variable arcgis : location -> world -> geo_answer * world.

Lemma cities_loop_stateless (answer : location -> geo_answer)
  (lines : list string) :
  (forall loc w, arcgis loc w = (answer loc, w)) ->
  forall (cities : list City) (out : list message) (w : world),
    cities_loop strip world arcgis lines cities out w
    = (cities
       ++ omap (fun line =>
                  city_of_answer (strip line) (answer (Place (strip line))))
            lines,
       out
       ++ omap (fun line =>
                  match city_of_answer (strip line)
                          (answer (Place (strip line))) with
                  | Some _ => None
                  | None => Some (FailedLocation (strip line))
                  end) lines,
       w).
Proof.
  intros Hpure.
  induction lines as [| line rest IH]; intros cities out w.
  - cbn. now rewrite !app_nil_r.
  - cbn [cities_loop omap list_omap]. unfold geocode. rewrite Hpure.
    destruct (city_of_answer (strip line) (answer (Place (strip line))))
      as [city |]; rewrite IH, <- app_assoc; reflexivity.
Qed.


Lemma info_loop_stateless (answer : location -> geo_answer)
  (coordinates : list Coordinate) :
  (forall loc w, arcgis loc w = (answer loc, w)) ->
  forall (file : csv_file) (out : list message) (w : world),
    info_loop world arcgis coordinates file out w
    = (file
       ++ omap (fun c =>
                  info_row (latitude c) (longitude c)
                    (answer (Point (latitude c) (longitude c))))
            coordinates,
       out
       ++ omap (fun c =>
                  match info_row (latitude c) (longitude c)
                          (answer (Point (latitude c) (longitude c))) with
                  | Some _ => None
                  | None => Some (FailedCity (latitude c) (longitude c))
                  end) coordinates,
       w).
Proof.
  intros Hpure.
  induction coordinates as [| c rest IH]; intros file out w.
  - cbn. now rewrite !app_nil_r.
  - cbn [info_loop iter_Coordinate omap list_omap]. unfold geocode.
    rewrite Hpure.
    destruct (info_row (latitude c) (longitude c)
                (answer (Point (latitude c) (longitude c)))) as [row |];
      rewrite IH, <- app_assoc; reflexivity.
Qed.

(** With such a service, the file of [write_coordinates] is the header
    followed, in order, by the rows of the coordinates whose answer has
    the three entries; the other coordinates are printed, in order. *)
Theorem write_coordinates_stateless (answer : location -> geo_answer)
  (coordinates : list Coordinate) (out : list message) (w : world) :
  (forall loc w, arcgis loc w = (answer loc, w)) ->
  write_coordinates world arcgis coordinates out w
  = (info_header
     :: omap (fun c =>
                info_row (latitude c) (longitude c)
                  (answer (Point (latitude c) (longitude c))))
          coordinates,
     out
     ++ omap (fun c =>
                match info_row (latitude c) (longitude c)
                        (answer (Point (latitude c) (longitude c))) with
                | Some _ => None
                | None => Some (FailedCity (latitude c) (longitude c))
                end) coordinates,
     w).
Proof.
  intros Hpure. unfold write_coordinates.
  now rewrite (info_loop_stateless answer coordinates Hpure).
Qed.
End ProgramFacts.

(** ** [main] *)

Lemma write_matches_extends (cities : list City)
  (coordinates : list Coordinate) :
  forall (file file' : csv_file) (r : result unit),
    write_matches coordinates cities file = (file', r) ->
    exists rows, file' = file ++ rows.
Proof.
  induction coordinates as [| q rest IH]; intros file file' r H.
  - cbn in H. injection H as <- _. exists []. now rewrite app_nil_r.
  - cbn [write_matches] in H.
    destruct (closest_city q cities) as [c | e].
    + destruct (IH _ _ _ H) as (rows & ->).
      exists (match_row q c :: rows). now rewrite <- app_assoc.
    + injection H as <- _. exists []. now rewrite app_nil_r.
Qed.

Section MainFacts.
Variable parse_float : string -> option R.
Variable strip : string -> string.
Variable world : Type.
Variable arcgis : location -> world -> geo_answer * world.

(** When [parse_coordinates] raises, or the file of city names has no
    line, [main] ends with an exception before it has opened a file for
    writing, asked the service or printed anything. *)
Theorem main_stops_before_output
  (coordinates_csv : list (gmap string (option string)))
  (cities_csv : list string) (w : world) :
  (exists e, parse_coordinates parse_float coordinates_csv = Raise e)
  \/ cities_csv = [] ->
  exists e,
    main parse_float strip world arcgis coordinates_csv cities_csv w
    = mkRun None None [] w (Raised e).
Proof.
  intros [(e & He) | ->]; unfold main.
  - rewrite He. now exists (Builtin e).
  - destruct (parse_coordinates parse_float coordinates_csv) as [cs | e].
    + now exists StopIteration.
    + now exists (Builtin e).
Qed.

(** Once the coordinates are parsed and the file of city names has a
    first line, [main] writes both files, each starting with its header,
    however the run ends. *)
Theorem main_writes_both_files
  (coordinates_csv : list (gmap string (option string)))
  (cities_csv : list string) (w : world) (coordinates : list Coordinate) :
  parse_coordinates parse_float coordinates_csv = Ok coordinates ->
  cities_csv <> [] ->
  exists info_rows closest_rows,
    info_file (main parse_float strip world arcgis
                 coordinates_csv cities_csv w)
    = Some (info_header :: info_rows)
    /\ closest_file (main parse_float strip world arcgis
                       coordinates_csv cities_csv w)
       = Some (header_row :: closest_rows).
Proof.
  intros Hparse Hne. unfold main. rewrite Hparse.
  destruct cities_csv as [| header lines]; [congruence |].
  unfold parse_cities.
  destruct (cities_loop strip world arcgis lines [] [] w)
    as [[cities out] w1].
  unfold write_coordinates.
  destruct (info_loop_accounts world arcgis coordinates [info_header] out w1)
    as (rows & written & failed & w2 & -> & _).
  destruct (write_closest_cities coordinates cities) as [closest r] eqn:Hc.
  apply write_matches_extends in Hc. destruct Hc as (crows & ->).
  now exists rows, crows.
Qed.

Lemma cities_loop_none (lines : list string) :
  (forall line w, city_of_answer line (arcgis (Place line) w).1 = None) ->
  forall (cities : list City) (out : list message) (w : world),
    exists w',
      cities_loop strip world arcgis lines cities out w
      = (cities, out ++ (FailedLocation <$> (strip <$> lines)), w').
Proof.
  intros Hnone.
  induction lines as [| line rest IH]; intros cities out w.
  - exists w. cbn. now rewrite app_nil_r.
  - cbn [cities_loop]. unfold geocode.
    pose proof (Hnone (strip line) w) as H.
    destruct (arcgis (Place (strip line)) w) as [geo w1]. cbn in H.
    rewrite H.
    destruct (IH cities (out ++ [FailedLocation (strip line)]) w1)
      as (w' & ->).
    exists w'. now rewrite <- app_assoc.
Qed.

(** When the service resolves no place, and there is a coordinate, [main]
    ends with the [ValueError] of [min] on an empty sequence.  By then it
    has printed every line after the first of the file of city names and
    written the first file; the second file holds its header only. *)
Theorem main_no_city_resolved
  (coordinates_csv : list (gmap string (option string)))
  (header : string) (lines : list string) (w : world)
  (coordinates : list Coordinate) :
  parse_coordinates parse_float coordinates_csv = Ok coordinates ->
  coordinates <> [] ->
  (forall line w, city_of_answer line (arcgis (Place line) w).1 = None) ->
  exists info_rows more,
    ended (main parse_float strip world arcgis
             coordinates_csv (header :: lines) w)
    = Raised (Builtin MinEmptySequence)
    /\ closest_file (main parse_float strip world arcgis
                       coordinates_csv (header :: lines) w)
       = Some [header_row]
    /\ info_file (main parse_float strip world arcgis
                    coordinates_csv (header :: lines) w)
       = Some (info_header :: info_rows)
    /\ printed (main parse_float strip world arcgis
                  coordinates_csv (header :: lines) w)
       = (FailedLocation <$> (strip <$> lines)) ++ more.
Proof.
  intros Hparse Hne Hnone. unfold main. rewrite Hparse.
  unfold parse_cities.
  destruct (cities_loop_none lines Hnone [] [] w) as (w1 & ->).
  rewrite app_nil_l.
  unfold write_coordinates.
  destruct (info_loop_accounts world arcgis coordinates [info_header]
              (FailedLocation <$> (strip <$> lines)) w1)
    as (rows & written & failed & w2 & -> & _).
  destruct coordinates as [| q rest]; [congruence |].
  exists rows. eexists. cbn. repeat split.
Qed.

(** When [main] returns, the second file holds the header and one row
    for each pair of rows of [coordinates.csv], in order, with the city
    that [closest_city] chose among the cities of [parse_cities]; the
    first file holds the header and at most as many rows. *)
Theorem main_returns
  (coordinates_csv : list (gmap string (option string)))
  (cities_csv : list string) (w : world) :
  ended (main parse_float strip world arcgis coordinates_csv cities_csv w)
  = Returned tt ->
  exists coordinates cities chosen info_rows out w1,
    parse_coordinates parse_float coordinates_csv = Ok coordinates
    /\ length coordinates_csv = (2 * length coordinates)%nat
    /\ parse_cities strip world arcgis cities_csv [] w
       = (Returned cities, out, w1)
    /\ Forall2 (fun q c => closest_city q cities = Ok c) coordinates chosen
    /\ closest_file (main parse_float strip world arcgis
                       coordinates_csv cities_csv w)
       = Some (header_row :: zip_with match_row coordinates chosen)
    /\ info_file (main parse_float strip world arcgis
                    coordinates_csv cities_csv w)
       = Some (info_header :: info_rows)
    /\ (length info_rows <= length coordinates)%nat.
Proof.
  unfold main.
  destruct (parse_coordinates parse_float coordinates_csv)
    as [coordinates | e] eqn:Hparse; [| discriminate].
  destruct (parse_cities strip world arcgis cities_csv [] w)
    as [[[cities | e] out] w1] eqn:Hcities; [| discriminate].
  unfold write_coordinates.
  destruct (info_loop_accounts world arcgis coordinates [info_header] out w1)
    as (rows & written & failed & w2 & -> & Hrows & Hsub & _).
  destruct (write_closest_cities coordinates cities) as [closest r] eqn:Hc.
  cbn. destruct r as [[] | e]; [| discriminate]. intros _.
  apply write_matches_ok_inv in Hc. destruct Hc as (chosen & Hall & ->).
  exists coordinates, cities, chosen, rows, out, w1.
  repeat split; auto.
  - apply parse_coordinates_paired in Hparse.
    now apply paired_length in Hparse.
  - apply Forall2_length in Hrows. apply sublist_length in Hsub. lia.
Qed.
End MainFacts.

(** ** The sample run *)

Lemma parse_rows_one_point :
  parse_coordinates sample_float rows_one_point
  = Ok [mkCoordinate 49.19 14.42].
Proof.
  apply parse_coordinates_paired.
  repeat constructor; apply value_of_value_row; reflexivity.
Qed.

Lemma strip_cities_file :
  ascii_strip <$> cities_file = ["name"; "Praha"; "Atlantis"].
Proof. reflexivity. Qed.

Lemma city_of_sample_Praha :
  city_of_answer "Praha" (sample_answer (Place "Praha"))
  = Some (new_City "Praha" 50.08 14.42).
Proof.
  cbn [sample_answer String.eqb Ascii.eqb Bool.eqb].
  unfold city_of_answer, geo_number.
  rewrite lookup_insert_eq. cbn [mbind option_bind].
  rewrite lookup_insert_ne by discriminate.
  now rewrite lookup_singleton_eq.
Qed.

Lemma city_of_sample_Atlantis :
  city_of_answer "Atlantis" (sample_answer (Place "Atlantis")) = None.
Proof. reflexivity. Qed.

Lemma parse_coordinates_value_only_witness :
  parse_coordinates sample_float rows_one_point
  = parse_coordinates sample_float rows_one_point_labelled.
Proof.
  apply parse_coordinates_value_only.
  unfold rows_one_point, rows_one_point_labelled.
  repeat constructor; now rewrite lookup_insert_ne by discriminate.
Defined.

Lemma parse_coordinates_app_witness :
  parse_coordinates sample_float (rows_one_point ++ [value_row "50.08"])
  = (coords ← parse_coordinates sample_float [value_row "50.08"];
     Ok ([mkCoordinate 49.19 14.42] ++ coords)).
Proof.
  apply parse_coordinates_app.
  unfold rows_one_point.
  repeat constructor; apply value_of_value_row; reflexivity.
Defined.


(** The sample file of city names gives the one city that the sample
    service knows, and the other line is printed. *)
Lemma parse_cities_sample :
  parse_cities ascii_strip unit sample_arcgis cities_file [] tt
  = (Returned [new_City "Praha" 50.08 14.42],
     [FailedLocation "Atlantis"], tt).
Proof.
  unfold cities_file, parse_cities.
  rewrite (cities_loop_stateless ascii_strip unit sample_arcgis
             sample_answer) by reflexivity.
  cbn [omap list_omap].
  change (ascii_strip (text_line "Praha")) with "Praha".
  change (ascii_strip (text_line "Atlantis")) with "Atlantis".
  now rewrite city_of_sample_Praha, city_of_sample_Atlantis.
Qed.

Lemma write_coordinates_stateless_witness :
  write_coordinates unit sample_arcgis [mkCoordinate 49.19 14.42] [] tt
  = (info_header
     :: omap (fun c =>
                info_row (latitude c) (longitude c)
                  (sample_answer (Point (latitude c) (longitude c))))
          [mkCoordinate 49.19 14.42],
     []
     ++ omap (fun c =>
                match info_row (latitude c) (longitude c)
                        (sample_answer (Point (latitude c) (longitude c)))
                with
                | Some _ => None
                | None => Some (FailedCity (latitude c) (longitude c))
                end) [mkCoordinate 49.19 14.42],
     tt).
Proof.
  apply (write_coordinates_stateless unit sample_arcgis sample_answer).
  intros loc w. reflexivity.
Defined.

Lemma main_stops_before_output_witness :
  exists e,
    main sample_float ascii_strip unit sample_arcgis rows_value cities_file tt
    = mkRun None None [] tt (Raised e).
Proof.
  apply main_stops_before_output. left.
  destruct (parse_coordinates_odd sample_float rows_value eq_refl)
    as (e & He & _).
  now exists e.
Defined.

Lemma main_writes_both_files_witness :
  exists info_rows closest_rows,
    info_file (main sample_float ascii_strip unit sample_arcgis
                 rows_one_point cities_file tt)
    = Some (info_header :: info_rows)
    /\ closest_file (main sample_float ascii_strip unit sample_arcgis
                       rows_one_point cities_file tt)
       = Some (header_row :: closest_rows).
Proof.
  apply (main_writes_both_files sample_float ascii_strip unit sample_arcgis
           rows_one_point cities_file tt [mkCoordinate 49.19 14.42]).
  - apply parse_rows_one_point.
  - discriminate.
Defined.

Lemma main_no_city_resolved_witness :
  exists info_rows more,
    ended (main sample_float ascii_strip unit silent_arcgis
             rows_one_point (text_line "name" :: [text_line "Praha"]) tt)
    = Raised (Builtin MinEmptySequence)
    /\ closest_file (main sample_float ascii_strip unit silent_arcgis
                       rows_one_point
                       (text_line "name" :: [text_line "Praha"]) tt)
       = Some [header_row]
    /\ info_file (main sample_float ascii_strip unit silent_arcgis
                    rows_one_point
                    (text_line "name" :: [text_line "Praha"]) tt)
       = Some (info_header :: info_rows)
    /\ printed (main sample_float ascii_strip unit silent_arcgis
                  rows_one_point
                  (text_line "name" :: [text_line "Praha"]) tt)
       = (FailedLocation <$> (ascii_strip <$> [text_line "Praha"])) ++ more.
Proof.
  apply (main_no_city_resolved sample_float ascii_strip unit silent_arcgis
           rows_one_point (text_line "name") [text_line "Praha"] tt
           [mkCoordinate 49.19 14.42]).
  - apply parse_rows_one_point.
  - discriminate.
  - intros line w. reflexivity.
Defined.

Lemma distance_Praha_point :
  distance (mkCoordinate 50.08 14.42) (mkCoordinate 49.19 14.42)
  = Ok (EARTH_RADIUS * radians (Rabs (49.19 - 50.08))).
Proof.
  apply (distance_cross_free (mkCoordinate 50.08 14.42)
           (mkCoordinate 49.19 14.42)); cbn [latitude longitude].
  - replace (14.42 - 14.42) with 0 by lra.
    replace (radians 0 / 2) with 0 by (unfold radians; lra).
    rewrite sin_0. lra.
  - lra.
Qed.

Lemma main_sample_ended :
  ended (main sample_float ascii_strip unit sample_arcgis
           rows_one_point cities_file tt)
  = Returned tt.
Proof.
  unfold main. rewrite parse_rows_one_point, parse_cities_sample.
  destruct (write_coordinates unit sample_arcgis [mkCoordinate 49.19 14.42]
              [FailedLocation "Atlantis"] tt) as [[info out] w].
  unfold write_closest_cities. cbn [write_matches].
  unfold closest_city. cbn [py_min].
  change (coord (new_City "Praha" 50.08 14.42))
    with (mkCoordinate 50.08 14.42).
  rewrite distance_Praha_point. reflexivity.
Qed.

Lemma main_returns_witness :
  exists coordinates cities chosen info_rows out w1,
    parse_coordinates sample_float rows_one_point = Ok coordinates
    /\ length rows_one_point = (2 * length coordinates)%nat
    /\ parse_cities ascii_strip unit sample_arcgis cities_file [] tt
       = (Returned cities, out, w1)
    /\ Forall2 (fun q c => closest_city q cities = Ok c) coordinates chosen
    /\ closest_file (main sample_float ascii_strip unit sample_arcgis
                       rows_one_point cities_file tt)
       = Some (header_row :: zip_with match_row coordinates chosen)
    /\ info_file (main sample_float ascii_strip unit sample_arcgis
                    rows_one_point cities_file tt)
       = Some (info_header :: info_rows)
    /\ (length info_rows <= length coordinates)%nat.
Proof.
  apply main_returns. apply main_sample_ended.
Defined.
